(** * Route path registry of the airweave frontend

    A shallow embedding of [frontend/src/constants/paths.ts]: the two
    exported object literals [protectedPaths] and [publicPaths], the
    evaluation of an object literal into an object, and property reads on
    such an object. *)

From Stdlib Require Import Ascii String NArith.
From stdpp Require Import gmap strings list fin_maps.

Local Open Scope string_scope.
Local Open Scope list_scope.

(** ** Objects with string-valued properties *)

(** One [key: "value"] line of an object literal. *)
Definition PropertyDefinition : Type := string * string.

(** An object holding only string-valued own data properties, as the ordered
    list of its own properties: string keys are enumerated in the order of
    their creation. *)
Definition JSObject : Type := list (string * string).

(** [CreateDataProperty]: an existing key keeps its place and takes the new
    value, a new key goes last. *)
Fixpoint define_property (k v : string) (o : JSObject) : JSObject :=
  match o with
  | [] => [(k, v)]
  | (k', v') :: o' =>
      if decide (k = k') then (k, v) :: o'
      else (k', v') :: define_property k v o'
  end.

(** The key of the prototype setter. *)
Definition proto_name : string := "__proto__".

(** One line of a literal, applied to the object built so far. A line whose
    key is [__proto__] is the prototype setter: given a string it changes
    nothing and defines no property. Any other line defines its property. *)
Definition define_line (o : JSObject) (d : PropertyDefinition) : JSObject :=
  if decide (d.1 = proto_name) then o else define_property d.1 d.2 o.

(** A literal with two [__proto__] lines is refused before it is evaluated. *)
Definition duplicate_proto (defs : list PropertyDefinition) : bool :=
  bool_decide (1 < length (filter (fun d : PropertyDefinition => d.1 = proto_name) defs)).

(** Evaluation of an object literal: the lines are applied from first to last
    to an empty object. *)
Definition object_literal (defs : list PropertyDefinition) : JSObject :=
  foldl define_line [] defs.

(** The own property of [o] named [k], if there is one. *)
Fixpoint own_property (o : JSObject) (k : string) : option string :=
  match o with
  | [] => None
  | (k', v) :: o' => if decide (k = k') then Some v else own_property o' k
  end.

(** The own properties as a finite map, the own keys and the own values as
    finite sets. *)
Definition properties (o : JSObject) : gmap string string := list_to_map o.
Definition keys (o : JSObject) : gset string := list_to_set o.*1.
Definition patterns (o : JSObject) : gset string := list_to_set o.*2.

(** What a property read can evaluate to. *)
Inductive Value : Type :=
  | VUndefined
  | VString (s : string)
  | VInherited (name : string).

Inductive Error : Type :=
  | NotFoundError
  | TypeError.

Inductive Completion : Type :=
  | Normal (v : Value)
  | Throw (e : Error).

(** The property names every plain object inherits from [Object.prototype]. *)
Definition object_prototype_keys : list string :=
  [ "constructor"; "hasOwnProperty"; "isPrototypeOf"; "propertyIsEnumerable";
    "toLocaleString"; "toString"; "valueOf"; "__proto__";
    "__defineGetter__"; "__defineSetter__";
    "__lookupGetter__"; "__lookupSetter__" ].

(** The read [table[identifier]] (or [table.identifier]): an own property
    gives its string, otherwise the prototype is asked, and a name found
    nowhere reads as [undefined]. *)
Definition lookup_path (table : JSObject) (identifier : string) : Completion :=
  match own_property table identifier with
  | Some pattern => Normal (VString pattern)
  | None =>
      if bool_decide (identifier ∈ object_prototype_keys)
      then Normal (VInherited identifier)
      else Normal VUndefined
  end.

(** Modelled from the spec: the source defines no lookup function.
    [lookup(table, identifier)] returns the pattern string associated with
    [identifier], and fails with a [NotFoundError] if [identifier] is absent
    from [table]. *)
Definition lookup (table : JSObject) (identifier : string) : Error + string :=
  match own_property table identifier with
  | Some pattern => inr pattern
  | None => inl NotFoundError
  end.

(** ** The source tables *)

Definition protectedPaths_literal : list PropertyDefinition :=
  [ ("dashboard", "/");
    ("collections", "/collections");
    ("collectionDetail", "/collections/:readable_id");
    ("collectionNew", "/collections/:readable_id/new");
    ("apiKeys", "/api-keys");
    ("authProviders", "/auth-providers");
    ("whiteLabel", "/white-label");
    ("whiteLabelTab", "/white-label/:id");
    ("whiteLabelCreate", "/white-label/create");
    ("whiteLabelDetail", "/white-label/:id");
    ("whiteLabelEdit", "/white-label/:id/edit");
    ("authCallback", "/auth/callback/:short_name") ].

Definition publicPaths_literal : list PropertyDefinition :=
  [ ("login", "/login");
    ("callback", "/callback");
    ("semanticMcp", "/semantic-mcp");
    ("onboarding", "/onboarding");
    ("billingSuccess", "/billing/success");
    ("billingCancel", "/billing/cancel") ].

Definition protectedPaths : JSObject := object_literal protectedPaths_literal.
Definition publicPaths : JSObject := object_literal publicPaths_literal.

(** The two tables of the registry. *)
Inductive Table : Type := Protected | Public.

Definition table_object (t : Table) : JSObject :=
  match t with
  | Protected => protectedPaths
  | Public => publicPaths
  end.

Definition table_literal (t : Table) : list PropertyDefinition :=
  match t with
  | Protected => protectedPaths_literal
  | Public => publicPaths_literal
  end.

(** ** Shape of a pattern *)

Definition slash : ascii := "/"%char.
Definition colon : ascii := ":"%char.

(** The first character of the pattern is a slash (false on the empty
    string). *)
Definition starts_with_slash (pattern : string) : bool :=
  match pattern with
  | EmptyString => false
  | String c _ => Ascii.eqb c slash
  end.

Fixpoint contains_char (c : ascii) (s : string) : bool :=
  match s with
  | EmptyString => false
  | String c' s' => Ascii.eqb c' c || contains_char c s'
  end.

(** Modelled from the spec: the router that reads the patterns is not in the
    source. A pattern is made of segments, cut at every slash; [cur] is the
    segment read so far. *)
Fixpoint segments_from (cur : string) (s : string) : list string :=
  match s with
  | EmptyString => [cur]
  | String c s' =>
      if Ascii.eqb c slash then cur :: segments_from EmptyString s'
      else segments_from (cur +:+ String c EmptyString) s'
  end.

Definition segments (pattern : string) : list string :=
  segments_from EmptyString pattern.

(** Modelled from the spec: a named parameter placeholder is a segment
    prefixed with a colon (the router that binds it is not in the source). *)
Definition placeholder_name (segment : string) : option string :=
  match segment with
  | String c name => if Ascii.eqb c colon then Some name else None
  | EmptyString => None
  end.

Definition placeholders (pattern : string) : list string :=
  omap placeholder_name (segments pattern).

(** Modelled from the spec: the guard that consumes the tables is not in the
    source. Going by the pattern string, a pattern is marked by a table when
    it is a value of that table. *)
Definition marked (t : Table) (pattern : string) : bool :=
  bool_decide (pattern ∈ patterns (table_object t)).

(** ** JSON text *)

Definition dquote : ascii := "034"%char.
Definition backslash : ascii := "092"%char.

Definition hex_digit (n : N) : ascii :=
  if (n <? 10)%N then ascii_of_N (48 + n) else ascii_of_N (87 + n).

(** Modelled from the spec: the source has no serializer, the spec names
    JSON. The text of one character inside a quoted JSON string: the five
    short escapes, the quote and the backslash, the other control characters
    as [\u00XX], anything else as it is. *)
Definition quote_char (c : ascii) : string :=
  let n := N_of_ascii c in
  if (n =? 8)%N then String backslash "b"
  else if (n =? 9)%N then String backslash "t"
  else if (n =? 10)%N then String backslash "n"
  else if (n =? 12)%N then String backslash "f"
  else if (n =? 13)%N then String backslash "r"
  else if (n =? 34)%N then String backslash (String dquote EmptyString)
  else if (n =? 92)%N then String backslash (String backslash EmptyString)
  else if (n <? 32)%N then
    String backslash
      ("u00" +:+ String (hex_digit (n / 16))
                   (String (hex_digit (n mod 16)) EmptyString))
  else String c EmptyString.

Fixpoint quote_chars (s : string) : string :=
  match s with
  | EmptyString => EmptyString
  | String c s' => quote_char c +:+ quote_chars s'
  end.

Definition quote_json_string (s : string) : string :=
  String dquote (quote_chars s +:+ String dquote EmptyString).

Definition stringify_member (k v : string) : string :=
  quote_json_string k +:+ ":" +:+ quote_json_string v.

Fixpoint stringify_members (o : JSObject) : string :=
  match o with
  | [] => EmptyString
  | (k, v) :: o' =>
      match o' with
      | [] => stringify_member k v
      | _ :: _ => stringify_member k v +:+ "," +:+ stringify_members o'
      end
  end.

(** Modelled from the spec: serializing a table (the source has no
    serializer). [JSON.stringify] of an object of strings: its own properties
    in their order, no white space. *)
Definition JSON_stringify (o : JSObject) : string :=
  "{" +:+ stringify_members o +:+ "}".

(** Which string of a member is being read: its key, or the value of the key
    already read. *)
Inductive Slot : Type :=
  | InKey
  | InValue (key : string).

(** Modelled from the spec: deserializing a table (the source has no
    parser). The parser reads the text one character at a time. *)
Inductive ParserState : Type :=
  | PStart
  | PKeyOrClose
  | PKey
  | PString (slot : Slot) (acc : string)
  | PEscape (slot : Slot) (acc : string)
  | PUnicode (slot : Slot) (acc : string) (digits : list N)
  | PColon (key : string)
  | PValue (key : string)
  | PCommaOrClose
  | PDone
  | PError.

(** The states in which a key may start. *)
Definition expects_key (s : ParserState) : Prop := s = PKeyOrClose ∨ s = PKey.

Definition is_whitespace (c : ascii) : bool :=
  let n := N_of_ascii c in
  ((n =? 32) || (n =? 9) || (n =? 10) || (n =? 13))%N.

Definition hex_value (c : ascii) : option N :=
  let n := N_of_ascii c in
  if ((48 <=? n) && (n <=? 57))%N then Some (n - 48)%N
  else if ((97 <=? n) && (n <=? 102))%N then Some (n - 87)%N
  else if ((65 <=? n) && (n <=? 70))%N then Some (n - 55)%N
  else None.

Definition snoc_char (acc : string) (c : ascii) : string :=
  acc +:+ String c EmptyString.

(** The closing quote of a string: a key waits for its colon, a value
    defines the property. *)
Definition close_string (slot : Slot) (acc : string) (built : JSObject)
  : ParserState * JSObject :=
  match slot with
  | InKey => (PColon acc, built)
  | InValue key => (PCommaOrClose, define_property key acc built)
  end.

(** The character named by an escape letter. *)
Definition escape_letter (c : ascii) : option ascii :=
  let n := N_of_ascii c in
  if (n =? 34)%N then Some dquote
  else if (n =? 92)%N then Some backslash
  else if (n =? 47)%N then Some slash
  else if (n =? 98)%N then Some (ascii_of_N 8)
  else if (n =? 102)%N then Some (ascii_of_N 12)
  else if (n =? 110)%N then Some (ascii_of_N 10)
  else if (n =? 114)%N then Some (ascii_of_N 13)
  else if (n =? 116)%N then Some (ascii_of_N 9)
  else None.

(** The code unit of four hexadecimal digits; strings here hold 8-bit
    characters, a larger code unit is refused. *)
Definition unicode_char (digits : list N) : option ascii :=
  match digits with
  | [a; b; c; d] =>
      let n := (((a * 16 + b) * 16 + c) * 16 + d)%N in
      if (n <? 256)%N then Some (ascii_of_N n) else None
  | _ => None
  end.

Definition parser_step (st : ParserState * JSObject) (c : ascii)
  : ParserState * JSObject :=
  let '(s, built) := st in
  match s with
  | PStart =>
      if is_whitespace c then (PStart, built)
      else if Ascii.eqb c "{" then (PKeyOrClose, built)
      else (PError, built)
  | PKeyOrClose =>
      if is_whitespace c then (PKeyOrClose, built)
      else if Ascii.eqb c dquote then (PString InKey EmptyString, built)
      else if Ascii.eqb c "}" then (PDone, built)
      else (PError, built)
  | PKey =>
      if is_whitespace c then (PKey, built)
      else if Ascii.eqb c dquote then (PString InKey EmptyString, built)
      else (PError, built)
  | PString slot acc =>
      if Ascii.eqb c dquote then close_string slot acc built
      else if Ascii.eqb c backslash then (PEscape slot acc, built)
      else if (N_of_ascii c <? 32)%N then (PError, built)
      else (PString slot (snoc_char acc c), built)
  | PEscape slot acc =>
      if Ascii.eqb c "u" then (PUnicode slot acc [], built)
      else match escape_letter c with
           | Some c' => (PString slot (snoc_char acc c'), built)
           | None => (PError, built)
           end
  | PUnicode slot acc digits =>
      match hex_value c with
      | Some d =>
          let digits' := digits ++ [d] in
          if (length digits' <? 4)%nat then (PUnicode slot acc digits', built)
          else match unicode_char digits' with
               | Some c' => (PString slot (snoc_char acc c'), built)
               | None => (PError, built)
               end
      | None => (PError, built)
      end
  | PColon key =>
      if is_whitespace c then (PColon key, built)
      else if Ascii.eqb c colon then (PValue key, built)
      else (PError, built)
  | PValue key =>
      if is_whitespace c then (PValue key, built)
      else if Ascii.eqb c dquote then (PString (InValue key) EmptyString, built)
      else (PError, built)
  | PCommaOrClose =>
      if is_whitespace c then (PCommaOrClose, built)
      else if Ascii.eqb c "," then (PKey, built)
      else if Ascii.eqb c "}" then (PDone, built)
      else (PError, built)
  | PDone =>
      if is_whitespace c then (PDone, built) else (PError, built)
  | PError => (PError, built)
  end.

Fixpoint parser_run (st : ParserState * JSObject) (text : string)
  : ParserState * JSObject :=
  match text with
  | EmptyString => st
  | String c text' => parser_run (parser_step st c) text'
  end.

Inductive ParseResult : Type :=
  | Parsed (o : JSObject)
  | SyntaxError.

(** Modelled from the spec: [JSON.parse] of the text of an object of
    strings; a repeated key keeps its place and takes the last value. *)
Definition JSON_parse (text : string) : ParseResult :=
  match parser_run (PStart, []) text with
  | (PDone, o) => Parsed o
  | _ => SyntaxError
  end.

(** ** Characters of a pattern *)

Definition hyphen : ascii := "-"%char.
Definition underscore : ascii := "_"%char.

Definition is_lower (c : ascii) : bool :=
  let n := N_of_ascii c in ((97 <=? n) && (n <=? 122))%N.

(** The characters the patterns of the source are written with. *)
Definition pattern_char (c : ascii) : bool :=
  is_lower c || Ascii.eqb c slash || Ascii.eqb c colon
  || Ascii.eqb c hyphen || Ascii.eqb c underscore.

Fixpoint all_chars (P : ascii → bool) (s : string) : bool :=
  match s with
  | EmptyString => true
  | String c s' => P c && all_chars P s'
  end.

(** [P prev c] holds of every character [c] of [s], where [prev] is the
    character right before it: [before] for the first character of [s]. *)
Fixpoint each_after (P : option ascii → ascii → bool)
    (before : option ascii) (s : string) : bool :=
  match s with
  | EmptyString => true
  | String c s' => P before c && each_after P (Some c) s'
  end.

(** The character at [i] and the one right before it ([None] at the start). *)
Definition char_before (i : nat) (s : string) : option ascii :=
  match i with
  | O => None
  | S j => String.get j s
  end.

Fixpoint last_char (s : string) : option ascii :=
  match s with
  | EmptyString => None
  | String c s' =>
      match s' with
      | EmptyString => Some c
      | String _ _ => last_char s'
      end
  end.

Definition is_slash (prev : option ascii) : bool :=
  match prev with
  | Some a => Ascii.eqb a slash
  | None => false
  end.

(** A slash is not right after a slash. *)
Definition no_double_slash (prev : option ascii) (c : ascii) : bool :=
  negb (Ascii.eqb c slash && is_slash prev).

(** A colon is right after a slash (so it is never the first character). *)
Definition colon_after_slash (prev : option ascii) (c : ascii) : bool :=
  implb (Ascii.eqb c colon) (is_slash prev).

(** ** Evaluation of the literals *)

Lemma protectedPaths_eval : protectedPaths = protectedPaths_literal.
Proof. vm_compute. reflexivity. Qed.

Lemma publicPaths_eval : publicPaths = publicPaths_literal.
Proof. vm_compute. reflexivity. Qed.

(** ** Properties of objects *)

Lemma own_property_properties (o : JSObject) (k : string) :
  own_property o k = properties o !! k.
Proof.
  unfold properties. induction o as [|[k' v] o IH]; cbn [own_property].
  - done.
  - rewrite list_to_map_cons, lookup_insert. cbn [fst snd].
    destruct (decide (k = k')) as [->|Hne].
    + by rewrite decide_True.
    + by rewrite decide_False.
Qed.

Lemma own_property_elem_of (o : JSObject) (k v : string) :
  own_property o k = Some v → (k, v) ∈ o.
Proof.
  induction o as [|[k' v'] o IH]; cbn [own_property]; [done|].
  destruct (decide (k = k')) as [->|Hne].
  - intros [= ->]. left.
  - intros H. right. auto.
Qed.

Lemma own_property_None (o : JSObject) (k : string) :
  own_property o k = None ↔ k ∉ o.*1.
Proof.
  induction o as [|[k' v'] o IH]; cbn [own_property].
  - split; [intros _; apply not_elem_of_nil | done].
  - rewrite fmap_cons, not_elem_of_cons. cbn [fst].
    destruct (decide (k = k')) as [->|Hne].
    + split; [done | intros [? _]; done].
    + rewrite IH. tauto.
Qed.

Lemma own_property_keys (o : JSObject) (k : string) :
  is_Some (own_property o k) ↔ k ∈ keys o.
Proof.
  unfold keys. rewrite elem_of_list_to_set.
  destruct (own_property o k) as [v|] eqn:E.
  - split; [intros _ | eauto].
    apply own_property_elem_of in E. apply list_elem_of_fmap. by exists (k, v).
  - split; [intros [? [=]] | intros Hin]. by apply own_property_None in E.
Qed.


Lemma define_property_fresh (k v : string) (o : JSObject) :
  k ∉ o.*1 → define_property k v o = o ++ [(k, v)].
Proof.
  induction o as [|[k' v'] o IH]; cbn [define_property]; [done|].
  rewrite fmap_cons, not_elem_of_cons. cbn [fst]. intros [Hne Hk].
  rewrite decide_False by done. by rewrite IH.
Qed.

Lemma own_property_define (k v : string) (o : JSObject) (k' : string) :
  own_property (define_property k v o) k' =
  if decide (k' = k) then Some v else own_property o k'.
Proof.
  induction o as [|[k0 v0] o IH]; cbn [define_property own_property].
  - done.
  - destruct (decide (k = k0)) as [->|Hne]; cbn [own_property].
    + by destruct (decide (k' = k0)).
    + rewrite IH. destruct (decide (k' = k0)) as [->|?]; [|done].
      by rewrite decide_False.
Qed.

Lemma foldl_define_fresh (acc defs : list PropertyDefinition) :
  NoDup (acc ++ defs).*1 →
  foldl (fun o d => define_property d.1 d.2 o) acc defs = acc ++ defs.
Proof.
  revert acc. induction defs as [|[k v] defs IH]; intros acc Hnd; cbn [foldl].
  - by rewrite app_nil_r.
  - cbn [fst snd]. rewrite define_property_fresh.
    + rewrite IH; rewrite <- app_assoc; done.
    + rewrite fmap_app, fmap_cons in Hnd. cbn [fst] in Hnd.
      apply NoDup_app in Hnd as (_ & Hdisj & _).
      intros Hin. apply (Hdisj k Hin). left.
Qed.

Lemma foldl_define_line_no_proto (acc defs : list PropertyDefinition) :
  proto_name ∉ defs.*1 →
  foldl define_line acc defs =
  foldl (fun o d => define_property d.1 d.2 o) acc defs.
Proof.
  revert acc. induction defs as [|[k v] defs IH]; intros acc Hno; [done|].
  rewrite fmap_cons, not_elem_of_cons in Hno. cbn [fst] in Hno.
  destruct Hno as [Hne Hno]. cbn [foldl]. rewrite <- IH by done.
  unfold define_line at 2. cbn [fst snd]. by rewrite decide_False.
Qed.

(** A literal that names no key twice, and has no [__proto__] line,
    evaluates to an object that lists its definitions as they are written. *)
Lemma object_literal_NoDup (defs : list PropertyDefinition) :
  NoDup defs.*1 → proto_name ∉ defs.*1 → object_literal defs = defs.
Proof.
  intros Hnd Hno. unfold object_literal.
  rewrite foldl_define_line_no_proto by done. by rewrite foldl_define_fresh.
Qed.

(** Objects never list a key twice, whatever the literal. *)
Lemma define_property_keys (k v : string) (o : JSObject) :
  (define_property k v o).*1 = if bool_decide (k ∈ o.*1) then o.*1 else o.*1 ++ [k].
Proof.
  induction o as [|[k' v'] o IH]; cbn [define_property]; [done|].
  rewrite fmap_cons. cbn [fst].
  destruct (decide (k = k')) as [->|Hne].
  - rewrite bool_decide_eq_true_2 by left. done.
  - rewrite fmap_cons, IH. cbn [fst].
    case_bool_decide as Hin.
    + rewrite bool_decide_eq_true_2 by (by right). done.
    + rewrite bool_decide_eq_false_2; [done|].
      rewrite not_elem_of_cons. done.
Qed.

Lemma define_property_NoDup (k v : string) (o : JSObject) :
  NoDup o.*1 → NoDup (define_property k v o).*1.
Proof.
  intros Hnd. rewrite define_property_keys. case_bool_decide as Hin; [done|].
  apply NoDup_app. split_and!; [done| |apply NoDup_singleton].
  intros x Hx Hx'. apply list_elem_of_singleton in Hx' as ->. done.
Qed.

Lemma foldl_define_NoDup (acc defs : list PropertyDefinition) :
  NoDup acc.*1 →
  NoDup (foldl (fun o d => define_property d.1 d.2 o) acc defs).*1.
Proof.
  revert acc. induction defs as [|[k v] defs IH]; intros acc Hnd; cbn [foldl].
  - done.
  - apply IH. by apply define_property_NoDup.
Qed.

Lemma foldl_define_line_NoDup (acc defs : list PropertyDefinition) :
  NoDup acc.*1 → NoDup (foldl define_line acc defs).*1.
Proof.
  revert acc. induction defs as [|[k v] defs IH]; intros acc Hnd; cbn [foldl].
  - done.
  - apply IH. unfold define_line. cbn [fst snd].
    case_decide; [done | by apply define_property_NoDup].
Qed.

Lemma object_literal_keys_NoDup (defs : list PropertyDefinition) :
  NoDup (object_literal defs).*1.
Proof. apply foldl_define_line_NoDup. constructor. Qed.

(** ** The registry *)

Ltac pick_disjunct :=
  first [ split; reflexivity | left; split; reflexivity | right; pick_disjunct ].

Ltac list_cases H :=
  repeat (apply elem_of_cons in H as [H | H]; [injection H as -> -> |]);
  try (by apply elem_of_nil in H).

(** C1: [protectedPaths] holds exactly the twelve identifier-to-pattern pairs
    of the registry: a key reads a pattern if and only if the pair is one of
    the twelve, and the object has twelve properties. *)
Theorem protectedPaths_exactly_twelve :
  length protectedPaths = 12%nat ∧
  ∀ k v : string,
    own_property protectedPaths k = Some v ↔
      (k = "dashboard" ∧ v = "/") ∨
      (k = "collections" ∧ v = "/collections") ∨
      (k = "collectionDetail" ∧ v = "/collections/:readable_id") ∨
      (k = "collectionNew" ∧ v = "/collections/:readable_id/new") ∨
      (k = "apiKeys" ∧ v = "/api-keys") ∨
      (k = "authProviders" ∧ v = "/auth-providers") ∨
      (k = "whiteLabel" ∧ v = "/white-label") ∨
      (k = "whiteLabelTab" ∧ v = "/white-label/:id") ∨
      (k = "whiteLabelCreate" ∧ v = "/white-label/create") ∨
      (k = "whiteLabelDetail" ∧ v = "/white-label/:id") ∨
      (k = "whiteLabelEdit" ∧ v = "/white-label/:id/edit") ∨
      (k = "authCallback" ∧ v = "/auth/callback/:short_name").
Proof.
  split; [by rewrite protectedPaths_eval|].
  intros k v. split.
  - intros H. apply own_property_elem_of in H.
    rewrite protectedPaths_eval in H. unfold protectedPaths_literal in H.
    list_cases H; pick_disjunct.
  - intros H.
    repeat (destruct H as [[-> ->] | H]; [vm_compute; reflexivity|]).
    destruct H as [-> ->]. vm_compute. reflexivity.
Qed.

(** C2: [publicPaths] holds exactly the six identifier-to-pattern pairs of the
    registry; in particular [login] reads ["/login"] and [onboarding] reads
    ["/onboarding"]. *)
Theorem publicPaths_exactly_six :
  length publicPaths = 6%nat ∧
  (∀ k v : string,
    own_property publicPaths k = Some v ↔
      (k = "login" ∧ v = "/login") ∨
      (k = "callback" ∧ v = "/callback") ∨
      (k = "semanticMcp" ∧ v = "/semantic-mcp") ∨
      (k = "onboarding" ∧ v = "/onboarding") ∨
      (k = "billingSuccess" ∧ v = "/billing/success") ∨
      (k = "billingCancel" ∧ v = "/billing/cancel")) ∧
  lookup_path publicPaths "login" = Normal (VString "/login") ∧
  lookup_path publicPaths "onboarding" = Normal (VString "/onboarding").
Proof.
  split; [by rewrite publicPaths_eval|].
  split; [|split; vm_compute; reflexivity].
  intros k v. split.
  - intros H. apply own_property_elem_of in H.
    rewrite publicPaths_eval in H. unfold publicPaths_literal in H.
    list_cases H; pick_disjunct.
  - intros H.
    repeat (destruct H as [[-> ->] | H]; [vm_compute; reflexivity|]).
    destruct H as [-> ->]. vm_compute. reflexivity.
Qed.

Lemma table_object_eval (t : Table) : table_object t = table_literal t.
Proof. destruct t; [apply protectedPaths_eval | apply publicPaths_eval]. Qed.

(** Every property of a table satisfies a check that holds of every
    definition of its literal. *)
Lemma table_Forall (P : string → string → Prop) (t : Table) :
  Forall (fun d => P d.1 d.2) (table_literal t) →
  ∀ k p, own_property (table_object t) k = Some p → P k p.
Proof.
  intros HP k p H. apply own_property_elem_of in H.
  rewrite table_object_eval in H.
  by apply (proj1 (Forall_forall _ _) HP (k, p)).
Qed.

(** C3: in both tables every pattern is a non-empty string whose first
    character is a slash. *)
Theorem patterns_start_with_slash (t : Table) (k p : string) :
  own_property (table_object t) k = Some p →
  p ≠ EmptyString ∧ starts_with_slash p = true.
Proof.
  revert k p. apply (table_Forall (fun _ p => p ≠ EmptyString ∧ starts_with_slash p = true)).
  destruct t; repeat constructor; done.
Qed.

Lemma patterns_start_with_slash_witness :
  "/collections" ≠ EmptyString ∧ starts_with_slash "/collections" = true.
Proof.
  apply (patterns_start_with_slash Protected "collections" "/collections").
  vm_compute. reflexivity.
Defined.

(** C5: [whiteLabelTab] and [whiteLabelDetail] read the same pattern in
    [protectedPaths], and that pattern is ["/white-label/:id"]. *)
Theorem whiteLabelTab_whiteLabelDetail :
  lookup_path protectedPaths "whiteLabelTab" = lookup_path protectedPaths "whiteLabelDetail" ∧
  lookup_path protectedPaths "whiteLabelTab" = Normal (VString "/white-label/:id") ∧
  lookup_path protectedPaths "whiteLabelDetail" = Normal (VString "/white-label/:id").
Proof. split_and!; vm_compute; reflexivity. Qed.

(** C6: no identifier is a key of both [protectedPaths] and [publicPaths]. *)
Theorem keys_disjoint :
  keys protectedPaths ## keys publicPaths ∧
  ∀ k : string,
    ¬ (is_Some (own_property protectedPaths k) ∧
       is_Some (own_property publicPaths k)).
Proof.
  assert (Hd : keys protectedPaths ## keys publicPaths).
  { apply (bool_decide_unpack _). vm_compute. exact I. }
  split; [exact Hd|].
  intros k [H1 H2]. apply own_property_keys in H1, H2. exact (Hd k H1 H2).
Qed.

(** C8: neither literal names a key twice, so each object has one property
    for every line of its literal, and the keys of each object are pairwise
    distinct. *)
Theorem keys_unique :
  ∀ t : Table,
    NoDup (table_literal t).*1 ∧
    NoDup (table_object t).*1 ∧
    length (table_object t) = length (table_literal t).
Proof.
  intros t.
  assert (Hnd : NoDup (table_literal t).*1).
  { apply (bool_decide_unpack _). destruct t; vm_compute; exact I. }
  split_and!; [done| |].
  - destruct t; apply object_literal_keys_NoDup.
  - by rewrite table_object_eval.
Qed.

(** C9: no pattern string is a value of both tables, so no pattern is marked
    both protected and public. *)
Theorem patterns_disjoint :
  patterns protectedPaths ## patterns publicPaths ∧
  ∀ p : string, ¬ (marked Protected p = true ∧ marked Public p = true).
Proof.
  assert (Hd : patterns protectedPaths ## patterns publicPaths).
  { apply (bool_decide_unpack _). vm_compute. exact I. }
  split; [exact Hd|].
  intros p [H1 H2]. unfold marked in *.
  apply bool_decide_eq_true_1 in H1, H2. exact (Hd p H1 H2).
Qed.

Lemma contains_char_snoc (c : ascii) (s : string) (c' : ascii) :
  contains_char c (s +:+ String c' EmptyString) =
  contains_char c s || Ascii.eqb c' c.
Proof.
  induction s as [|c0 s IH]; simpl.
  - by destruct (Ascii.eqb c' c).
  - rewrite IH. by destruct (Ascii.eqb c0 c), (contains_char c s).
Qed.

Lemma placeholder_name_no_colon (s : string) :
  contains_char colon s = false → placeholder_name s = None.
Proof.
  destruct s as [|c s]; cbn [contains_char placeholder_name]; [done|].
  intros H. apply orb_false_elim in H as [-> _]. done.
Qed.

Lemma omap_cons_None {A B : Type} (f : A → option B) (x : A) (l : list A) :
  f x = None → omap f (x :: l) = omap f l.
Proof. intros H. change (omap f (x :: l)) with (from_option (λ y, y :: omap f l) (omap f l) (f x)). by rewrite H. Qed.

(** A string without a colon has no placeholder segment. *)
Lemma segments_from_no_colon (cur s : string) :
  contains_char colon cur = false →
  contains_char colon s = false →
  omap placeholder_name (segments_from cur s) = [].
Proof.
  revert cur. induction s as [|c s IH]; intros cur Hcur Hs;
    cbn [segments_from contains_char] in *.
  - by rewrite omap_cons_None by (by apply placeholder_name_no_colon).
  - apply orb_false_elim in Hs as [Hc Hs].
    destruct (Ascii.eqb c slash).
    + rewrite omap_cons_None by (by apply placeholder_name_no_colon). by apply IH.
    + apply IH; [|done]. by rewrite contains_char_snoc, Hcur, Hc.
Qed.

Lemma placeholders_no_colon (p : string) :
  contains_char colon p = false → placeholders p = [].
Proof. intros H. by apply segments_from_no_colon. Qed.

(** C10: no pattern of [publicPaths] contains a colon, hence none has a
    named parameter placeholder. *)
Theorem publicPaths_patterns_literal (k p : string) :
  own_property publicPaths k = Some p →
  contains_char colon p = false ∧ placeholders p = [].
Proof.
  intros H.
  assert (Hc : contains_char colon p = false).
  { revert k p H. apply (table_Forall (fun _ p => contains_char colon p = false) Public).
    repeat constructor. }
  split; [done | by apply placeholders_no_colon].
Qed.

Lemma publicPaths_patterns_literal_witness :
  contains_char colon "/billing/success" = false ∧
  placeholders "/billing/success" = [].
Proof.
  apply (publicPaths_patterns_literal "billingSuccess" "/billing/success").
  vm_compute. reflexivity.
Defined.

Example lookup_path_own :
  lookup_path protectedPaths "authCallback" = Normal (VString "/auth/callback/:short_name").
Proof. vm_compute. reflexivity. Qed.

Example lookup_path_inherited :
  lookup_path publicPaths "toString" = Normal (VInherited "toString").
Proof. vm_compute. reflexivity. Qed.

Example placeholders_collectionNew :
  placeholders "/collections/:readable_id/new" = ["readable_id"].
Proof. vm_compute. reflexivity. Qed.


Example lookup_present :
  lookup publicPaths "semanticMcp" = inr "/semantic-mcp".
Proof. vm_compute. reflexivity. Qed.

Example lookup_absent :
  lookup publicPaths "dashboard" = inl NotFoundError.
Proof. vm_compute. reflexivity. Qed.

(** ** The JSON text and back *)

Lemma string_app_cons (c : ascii) (s t : string) :
  String c s +:+ t = String c (s +:+ t).
Proof. reflexivity. Qed.

Lemma string_app_nil_r (s : string) : s +:+ EmptyString = s.
Proof. induction s as [|c s IH]; [done | by rewrite string_app_cons, IH]. Qed.

Lemma string_app_assoc (a b c : string) : (a +:+ b) +:+ c = a +:+ (b +:+ c).
Proof. induction a as [|x a IH]; [done | by rewrite !string_app_cons, IH]. Qed.

Lemma parser_run_app (st : ParserState * JSObject) (a b : string) :
  parser_run st (a +:+ b) = parser_run (parser_run st a) b.
Proof.
  revert st. induction a as [|c a IH]; intros st; [done|].
  rewrite string_app_cons. cbn [parser_run]. apply IH.
Qed.

(** Inside a string, the text of a character reads back as that character. *)
Lemma parser_run_quote_char (slot : Slot) (acc : string) (built : JSObject) (c : ascii) :
  parser_run (PString slot acc, built) (quote_char c) =
  (PString slot (snoc_char acc c), built).
Proof. destruct c as [[] [] [] [] [] [] [] []]; vm_compute; reflexivity. Qed.

Lemma parser_run_quote_chars (slot : Slot) (acc : string) (built : JSObject) (s : string) :
  parser_run (PString slot acc, built) (quote_chars s) =
  (PString slot (acc +:+ s), built).
Proof.
  revert acc. induction s as [|c s IH]; intros acc; cbn [quote_chars].
  - by rewrite string_app_nil_r.
  - rewrite parser_run_app, parser_run_quote_char, IH.
    unfold snoc_char. by rewrite string_app_assoc.
Qed.

Lemma parser_run_key (s : ParserState) (built : JSObject) (k : string) :
  expects_key s →
  parser_run (s, built) (quote_json_string k) = (PColon k, built).
Proof.
  intros Hs. unfold quote_json_string. cbn [parser_run].
  replace (parser_step (s, built) dquote) with (PString InKey EmptyString, built)
    by (by destruct Hs as [-> | ->]).
  rewrite parser_run_app, parser_run_quote_chars. reflexivity.
Qed.

Lemma parser_run_value (key : string) (built : JSObject) (v : string) :
  parser_run (PValue key, built) (quote_json_string v) =
  (PCommaOrClose, define_property key v built).
Proof.
  unfold quote_json_string. cbn [parser_run].
  change (parser_step (PValue key, built) dquote)
    with (PString (InValue key) EmptyString, built).
  rewrite parser_run_app, parser_run_quote_chars. reflexivity.
Qed.

Lemma parser_run_member (s : ParserState) (built : JSObject) (k v : string) :
  expects_key s →
  parser_run (s, built) (stringify_member k v) =
  (PCommaOrClose, define_property k v built).
Proof.
  intros Hs. unfold stringify_member.
  rewrite !parser_run_app, parser_run_key by done.
  change (parser_run (PColon k, built) ":") with (PValue k, built).
  apply parser_run_value.
Qed.

Lemma parser_run_members (s : ParserState) (built o : JSObject) :
  expects_key s → o ≠ [] →
  parser_run (s, built) (stringify_members o) =
  (PCommaOrClose, foldl (fun o d => define_property d.1 d.2 o) built o).
Proof.
  revert s built. induction o as [|[k v] o IH]; intros s built Hs Hne; [done|].
  cbn [stringify_members foldl fst snd]. destruct o as [|d o].
  - by apply parser_run_member.
  - rewrite !parser_run_app, parser_run_member by done.
    change (parser_run (PCommaOrClose, define_property k v built) ",")
      with (PKey, define_property k v built).
    apply IH; [by right | done].
Qed.

(** Parsing the text of an object gives the object its properties define,
    first to last. *)
Lemma JSON_parse_stringify (o : JSObject) :
  JSON_parse (JSON_stringify o) =
  Parsed (foldl (fun o d => define_property d.1 d.2 o) [] o).
Proof.
  unfold JSON_parse, JSON_stringify.
  change ("{" +:+ stringify_members o +:+ "}")
    with (String "{" (stringify_members o +:+ "}")).
  cbn [parser_run].
  change (parser_step (PStart, []) "{") with (PKeyOrClose, [] : JSObject).
  destruct o as [|d o]; [reflexivity|].
  rewrite parser_run_app, parser_run_members by (by left || done).
  reflexivity.
Qed.

(** The parser refuses text that is not an object of strings, and a repeated
    key keeps the last value. *)
Example JSON_parse_unclosed : JSON_parse "{" = SyntaxError.
Proof. reflexivity. Qed.

Example JSON_parse_empty_object : JSON_parse " { } " = Parsed [].
Proof. reflexivity. Qed.

Example JSON_parse_repeated_key :
  JSON_parse (JSON_stringify [("login", "/a"); ("callback", "/b"); ("login", "/c")])
  = Parsed [("login", "/c"); ("callback", "/b")].
Proof. vm_compute. reflexivity. Qed.

Example JSON_roundtrip_escapes :
  let o := [(String dquote (String backslash "k"), String (ascii_of_N 10) (String (ascii_of_N 31) "v"))] in
  JSON_parse (JSON_stringify o) = Parsed o.
Proof. vm_compute. reflexivity. Qed.

(** An object, whose keys are distinct, is what its text parses to. *)
Lemma JSON_roundtrip (o : JSObject) :
  NoDup o.*1 → JSON_parse (JSON_stringify o) = Parsed o.
Proof. intros Hnd. by rewrite JSON_parse_stringify, foldl_define_fresh. Qed.

(** C7: each table of the registry, written as JSON text and parsed back, is
    the table again: the same properties in the same order, so the same
    identifier-to-pattern pairs. *)
Theorem registry_json_roundtrip :
  ∀ t : Table,
    JSON_parse (JSON_stringify (table_object t)) = Parsed (table_object t) ∧
    ∀ o : JSObject,
      JSON_parse (JSON_stringify (table_object t)) = Parsed o →
      ∀ k : string, own_property o k = own_property (table_object t) k.
Proof.
  intros t.
  assert (H : JSON_parse (JSON_stringify (table_object t)) = Parsed (table_object t)).
  { apply JSON_roundtrip. destruct t; apply object_literal_keys_NoDup. }
  split; [exact H|].
  intros o Ho k. rewrite H in Ho. by injection Ho as <-.
Qed.

(** ** More on the two tables *)

(** Every pair of properties of a table satisfies a check that holds of every
    pair of definitions of its literal. *)
Lemma table_Forall2 (P : string → string → string → string → Prop) (t : Table) :
  Forall (fun d1 => Forall (fun d2 => P d1.1 d1.2 d2.1 d2.2) (table_literal t))
         (table_literal t) →
  ∀ k1 p1 k2 p2,
    own_property (table_object t) k1 = Some p1 →
    own_property (table_object t) k2 = Some p2 → P k1 p1 k2 p2.
Proof.
  intros HP k1 p1 k2 p2 H1 H2.
  apply own_property_elem_of in H1, H2. rewrite table_object_eval in H1, H2.
  pose proof (proj1 (Forall_forall _ _) HP (k1, p1) H1) as HP1.
  exact (proj1 (Forall_forall _ _) HP1 (k2, p2) H2).
Qed.

(** X3: two identifiers of one table read the same pattern if and only if
    they are the same identifier, or they are [whiteLabelTab] and
    [whiteLabelDetail] of [protectedPaths]; [publicPaths] has no such pair. *)
Theorem same_pattern_iff_same_identifier (t : Table) (k1 k2 p1 p2 : string) :
  own_property (table_object t) k1 = Some p1 →
  own_property (table_object t) k2 = Some p2 →
  (p1 = p2 ↔
   k1 = k2 ∨
   (t = Protected ∧
    ((k1 = "whiteLabelTab" ∧ k2 = "whiteLabelDetail") ∨
     (k1 = "whiteLabelDetail" ∧ k2 = "whiteLabelTab")))).
Proof.
  intros H1 H2. destruct t.
  - assert (HF : Forall (fun d1 : PropertyDefinition =>
                   Forall (fun d2 : PropertyDefinition =>
                     d1.2 = d2.2 ↔
                     d1.1 = d2.1 ∨
                     ((d1.1 = "whiteLabelTab" ∧ d2.1 = "whiteLabelDetail") ∨
                      (d1.1 = "whiteLabelDetail" ∧ d2.1 = "whiteLabelTab")))
                     protectedPaths_literal) protectedPaths_literal).
    { apply (bool_decide_unpack _). vm_compute. exact I. }
    pose proof (table_Forall2
                  (fun k1 p1 k2 p2 =>
                     p1 = p2 ↔
                     k1 = k2 ∨
                     ((k1 = "whiteLabelTab" ∧ k2 = "whiteLabelDetail") ∨
                      (k1 = "whiteLabelDetail" ∧ k2 = "whiteLabelTab")))
                  Protected HF k1 p1 k2 p2 H1 H2) as Hiff.
    cbv beta in Hiff. rewrite Hiff. tauto.
  - assert (HF : Forall (fun d1 : PropertyDefinition =>
                   Forall (fun d2 : PropertyDefinition => d1.2 = d2.2 ↔ d1.1 = d2.1)
                     publicPaths_literal) publicPaths_literal).
    { apply (bool_decide_unpack _). vm_compute. exact I. }
    pose proof (table_Forall2 (fun k1 p1 k2 p2 => p1 = p2 ↔ k1 = k2) Public
                  HF k1 p1 k2 p2 H1 H2) as Hiff.
    cbv beta in Hiff. rewrite Hiff.
    split; [by left | intros [?|[[=] _]]; done].
Qed.

Lemma same_pattern_iff_same_identifier_witness :
  "/white-label/:id" = "/white-label/:id" ↔
  "whiteLabelTab" = "whiteLabelDetail" ∨
  (Protected = Protected ∧
   (("whiteLabelTab" = "whiteLabelTab" ∧ "whiteLabelDetail" = "whiteLabelDetail") ∨
    ("whiteLabelTab" = "whiteLabelDetail" ∧ "whiteLabelDetail" = "whiteLabelTab"))).
Proof.
  apply (same_pattern_iff_same_identifier Protected
           "whiteLabelTab" "whiteLabelDetail" "/white-label/:id" "/white-label/:id");
    vm_compute; reflexivity.
Defined.

(** X4: no table defines a property named like a member of
    [Object.prototype]: reading such a name from a table gives the inherited
    member, never a pattern. *)
Theorem tables_shadow_no_inherited_member (t : Table) (name : string) :
  name ∈ object_prototype_keys →
  own_property (table_object t) name = None ∧
  lookup_path (table_object t) name = Normal (VInherited name).
Proof.
  intros Hin.
  assert (Hown : own_property (table_object t) name = None).
  { revert name Hin. apply Forall_forall.
    apply (bool_decide_unpack _). destruct t; vm_compute; exact I. }
  split; [exact Hown|].
  unfold lookup_path. rewrite Hown. by rewrite bool_decide_eq_true_2.
Qed.

Lemma tables_shadow_no_inherited_member_witness :
  own_property (table_object Protected) "constructor" = None ∧
  lookup_path (table_object Protected) "constructor" = Normal (VInherited "constructor").
Proof.
  apply (tables_shadow_no_inherited_member Protected "constructor").
  apply (bool_decide_unpack _). vm_compute. exact I.
Defined.

(** X5: every pattern of both tables is written with lower-case letters,
    slashes, colons, hyphens and underscores only. *)
Theorem patterns_alphabet (t : Table) (k p : string) :
  own_property (table_object t) k = Some p →
  all_chars pattern_char p = true.
Proof.
  revert k p. apply (table_Forall (fun _ p => all_chars pattern_char p = true)).
  destruct t; repeat constructor.
Qed.

Lemma patterns_alphabet_witness :
  all_chars pattern_char "/auth/callback/:short_name" = true.
Proof.
  apply (patterns_alphabet Protected "authCallback" "/auth/callback/:short_name").
  vm_compute. reflexivity.
Defined.

(** What [each_after] checks, character by character. *)
Lemma each_after_get (P : option ascii → ascii → bool)
    (before : option ascii) (s : string) :
  each_after P before s = true →
  ∀ (i : nat) (c : ascii),
    String.get i s = Some c →
    P (match i with O => before | S j => String.get j s end) c = true.
Proof.
  revert before. induction s as [|a s IH]; intros before Hall i c Hget.
  - by destruct i.
  - cbn [each_after] in Hall. apply andb_prop in Hall as [Ha Hs].
    destruct i as [|i]; cbn [String.get] in Hget.
    + by injection Hget as <-.
    + specialize (IH (Some a) Hs i c Hget). by destruct i.
Qed.

(** X6: in every pattern of both tables every colon stands right after a
    slash (so no pattern starts with a colon), no slash stands right after a
    slash, and only the root pattern ["/"] ends with a slash. *)
Theorem patterns_well_formed (t : Table) (k p : string) :
  own_property (table_object t) k = Some p →
  (∀ i : nat, String.get i p = Some colon → char_before i p = Some slash) ∧
  (∀ i : nat, String.get i p = Some slash → char_before i p ≠ Some slash) ∧
  (last_char p = Some slash ↔ p = "/").
Proof.
  intros H.
  assert (Hc : each_after colon_after_slash None p = true ∧
               each_after no_double_slash None p = true ∧
               (last_char p = Some slash ↔ p = "/")).
  { revert k p H.
    apply (table_Forall (fun _ p =>
      each_after colon_after_slash None p = true ∧
      each_after no_double_slash None p = true ∧
      (last_char p = Some slash ↔ p = "/"))).
    destruct t; repeat constructor; done. }
  destruct Hc as (Hcolon & Hslash & Hlast). split_and!; [| |exact Hlast].
  - intros i Hi. pose proof (each_after_get _ _ _ Hcolon i colon Hi) as HP.
    unfold colon_after_slash in HP. rewrite Ascii.eqb_refl in HP. cbn [implb] in HP.
    change (match i with O => None | S j => String.get j p end)
      with (char_before i p) in HP.
    destruct (char_before i p) as [a|]; [|done].
    cbn [is_slash] in HP. by apply Ascii.eqb_eq in HP as ->.
  - intros i Hi Hb. pose proof (each_after_get _ _ _ Hslash i slash Hi) as HP.
    change (match i with O => None | S j => String.get j p end)
      with (char_before i p) in HP.
    unfold no_double_slash in HP. rewrite Hb in HP. cbn [is_slash] in HP.
    by rewrite Ascii.eqb_refl in HP.
Qed.

Lemma patterns_well_formed_witness :
  (∀ i : nat, String.get i "/collections/:readable_id/new" = Some colon →
              char_before i "/collections/:readable_id/new" = Some slash) ∧
  (∀ i : nat, String.get i "/collections/:readable_id/new" = Some slash →
              char_before i "/collections/:readable_id/new" ≠ Some slash) ∧
  (last_char "/collections/:readable_id/new" = Some slash ↔
   "/collections/:readable_id/new" = "/").
Proof.
  apply (patterns_well_formed Protected "collectionNew" "/collections/:readable_id/new").
  vm_compute. reflexivity.
Defined.

(** The checks refuse what they should. *)
Example pattern_char_upper : all_chars pattern_char "/Login" = false.
Proof. reflexivity. Qed.

Example double_slash_refused : each_after no_double_slash None "/billing//cancel" = false.
Proof. reflexivity. Qed.

Example colon_inside_segment_refused :
  each_after colon_after_slash None "/white-label/x:id" = false.
Proof. reflexivity. Qed.

Example colon_first_refused : each_after colon_after_slash None ":id" = false.
Proof. reflexivity. Qed.

Example last_char_trailing_slash : last_char "/login/" = Some slash.
Proof. reflexivity. Qed.

Example object_literal_repeated_key :
  object_literal [("login", "/a"); ("callback", "/b"); ("login", "/c")]
  = [("login", "/c"); ("callback", "/b")].
Proof. vm_compute. reflexivity. Qed.

Example object_literal_proto_line :
  object_literal [("__proto__", "/x"); ("login", "/login")] = [("login", "/login")].
Proof. vm_compute. reflexivity. Qed.

Example duplicate_proto_refused :
  duplicate_proto [("__proto__", "/x"); ("login", "/login"); ("__proto__", "/y")] = true.
Proof. vm_compute. reflexivity. Qed.

Example tables_no_duplicate_proto :
  duplicate_proto protectedPaths_literal = false ∧
  duplicate_proto publicPaths_literal = false.
Proof. split; vm_compute; reflexivity. Qed.
